(** * Tag editing control (chroma-ui, components/Explorer/Tags.tsx)

    A shallow embedding of the [Tags] React component: its five pieces of
    component state, its event handlers, the comma parsing and the add/remove
    diff computed in [onSubmitName], and the event system obtained from the
    elements the component renders in each mode. *)

From Stdlib Require Import Ascii String List NArith ZArith Bool Permutation Lia.
Import ListNotations.

(** ** JavaScript strings

    A JavaScript string is a sequence of UTF-16 code units.  [===] on strings
    and [Array.prototype.includes] (SameValueZero) both compare code unit by
    code unit. *)

Module JS.

Definition char := N.
Definition jsstring := list char.

(** ASCII literals, for readable examples. *)
Definition lit (s : string) : jsstring :=
  map N_of_ascii (list_ascii_of_string s).

Definition comma : char := 44%N.

(** [s1 === s2] on strings. *)
Fixpoint strict_eq (s1 s2 : jsstring) : bool :=
  match s1, s2 with
  | [], [] => true
  | c1 :: r1, c2 :: r2 => (c1 =? c2)%N && strict_eq r1 r2
  | _, _ => false
  end.

(** [arr.includes(x)] on an array of strings. *)
Definition includes (arr : list jsstring) (x : jsstring) : bool :=
  existsb (strict_eq x) arr.

(** ECMAScript WhiteSpace and LineTerminator code points, the characters
    removed by [String.prototype.trim]: TAB, VT, FF, SP, NBSP, ZWNBSP, the
    Space_Separator category, and LF, CR, LS, PS. *)
Definition isWhiteSpace (c : char) : bool :=
  ((c =? 9) || (c =? 10) || (c =? 11) || (c =? 12) || (c =? 13) || (c =? 32)
   || (c =? 160) || (c =? 5760)
   || ((8192 <=? c) && (c <=? 8202))
   || (c =? 8232) || (c =? 8233) || (c =? 8239) || (c =? 8287)
   || (c =? 12288) || (c =? 65279))%N.

Fixpoint trimStart (s : jsstring) : jsstring :=
  match s with
  | [] => []
  | c :: rest => if isWhiteSpace c then trimStart rest else s
  end.

Definition trimEnd (s : jsstring) : jsstring := rev (trimStart (rev s)).

(** [s.trim()] *)
Definition trim (s : jsstring) : jsstring := trimEnd (trimStart s).

Definition startsWithWhiteSpace (s : jsstring) : bool :=
  match s with
  | [] => false
  | c :: _ => isWhiteSpace c
  end.

Definition endsWithWhiteSpace (s : jsstring) : bool :=
  startsWithWhiteSpace (rev s).

(** [s.split(sep)] for a one-character separator: the pieces between the
    occurrences of [sep]; the empty string splits to one empty piece. *)
Fixpoint split (sep : char) (s : jsstring) : list jsstring :=
  match s with
  | [] => [[]]
  | c :: rest =>
      if (c =? sep)%N then [] :: split sep rest
      else match split sep rest with
           | piece :: more => (c :: piece) :: more
           | [] => [[c]]
           end
  end.

(** [arr.join(sep)] on an array of strings. *)
Fixpoint join (sep : jsstring) (arr : list jsstring) : jsstring :=
  match arr with
  | [] => []
  | [x] => x
  | x :: rest => x ++ sep ++ join sep rest
  end.

End JS.

Import JS.

(** ** The component *)

(** [tagString.split(",").map(tag => tag.trim())], lines 51 and 52. *)
Definition parse (s : jsstring) : list jsstring := map trim (split comma s).

(** The separator of [tagStrings.join(", ")], line 38. *)
Definition comma_space : jsstring := [44%N; 32%N].

Definition serialize (tagStrings : list jsstring) : jsstring :=
  join comma_space tagStrings.

(** The objects of the [tags] prop: [tags.map(tag => tag.tag.name)], line 36. *)
Record TagName := { name : jsstring }.
Record TagEntry := { tag : TagName }.

(** Component state, lines 26 to 30, one field per [useState]. *)
Record State := mkState {
  isEditing : bool;
  isUpdating : bool;
  originalTagString : jsstring;
  tagString : jsstring;
  tagsArray : list jsstring
}.

(** The [useState] defaults. *)
Definition initialState : State :=
  {| isEditing := false; isUpdating := false;
     originalTagString := []; tagString := []; tagsArray := [] |}.

Definition setIsEditing (b : bool) (s : State) : State :=
  {| isEditing := b; isUpdating := isUpdating s;
     originalTagString := originalTagString s; tagString := tagString s;
     tagsArray := tagsArray s |}.

Definition setOriginalTagString (v : jsstring) (s : State) : State :=
  {| isEditing := isEditing s; isUpdating := isUpdating s;
     originalTagString := v; tagString := tagString s;
     tagsArray := tagsArray s |}.

Definition setTagString (v : jsstring) (s : State) : State :=
  {| isEditing := isEditing s; isUpdating := isUpdating s;
     originalTagString := originalTagString s; tagString := v;
     tagsArray := tagsArray s |}.

Definition setTagsArray (a : list jsstring) (s : State) : State :=
  {| isEditing := isEditing s; isUpdating := isUpdating s;
     originalTagString := originalTagString s; tagString := tagString s;
     tagsArray := a |}.

(** The two remote mutations, lines 32 and 33, with their [variables]. *)
Record Variables := { tagName : jsstring; datapointIds : list Z }.

Inductive Call :=
| addTag (variables : Variables)
| unTag (variables : Variables).

(** The effect on [tags], lines 35 to 41. *)
Definition useEffect (tags : list TagEntry) (s : State) : State :=
  let tagStrings := map (fun t => name (tag t)) tags in
  let s := setTagsArray tagStrings s in
  let allTags := join comma_space tagStrings in
  let s := setTagString allTags s in
  setOriginalTagString allTags s.

(** Lines 43 to 45. *)
Definition checkAndSetName (value : jsstring) (s : State) : State :=
  setTagString value s.

(** The three filters of lines 56, 59 and 62. *)
Definition remove (originalTagsArray newTagsArray : list jsstring) : list jsstring :=
  filter (fun x => negb (includes newTagsArray x)) originalTagsArray.

Definition add (originalTagsArray newTagsArray : list jsstring) : list jsstring :=
  filter (fun x => negb (includes originalTagsArray x)) newTagsArray.

Definition keep (originalTagsArray newTagsArray : list jsstring) : list jsstring :=
  filter (fun x => includes newTagsArray x) originalTagsArray.

(** Lines 47 to 78.  The result pairs the next state with the remote calls
    started by the handler, in the order in which they are started: the
    [add.map] loop runs before the [remove.map] loop. *)
Definition onSubmitName (datapointId : Z) (s : State) : State * list Call :=
  let s1 := setIsEditing false s in
  let newTagsArray := parse (tagString s) in
  let originalTagsArray := parse (originalTagString s) in
  if strict_eq (tagString s) (originalTagString s) then (s1, [])
  else
    let remove := remove originalTagsArray newTagsArray in
    let add := add originalTagsArray newTagsArray in
    let keep := keep originalTagsArray newTagsArray in
    let added :=
      map (fun tagToAdd =>
             addTag {| tagName := tagToAdd; datapointIds := [datapointId] |})
          add in
    let removed :=
      map (fun tagToRemove =>
             unTag {| tagName := tagToRemove; datapointIds := [datapointId] |})
          remove in
    (setTagsArray newTagsArray s1, added ++ removed).

(** Lines 84 to 89. *)
Definition onKeyPress (datapointId : Z) (key : jsstring) (s : State)
  : State * list Call :=
  if strict_eq key (lit "Enter") then onSubmitName datapointId s else (s, []).

(** Lines 91 to 94. *)
Definition handleBlur (s : State) : State :=
  setTagString (originalTagString s) (setIsEditing false s).

(** The [onClick] of the tag display, line 117. *)
Definition onClick (s : State) : State :=
  setIsEditing (negb (isEditing s)) s.

(** The spinner is an element of the tag display, which is rendered when
    [isEditing] is false; it is rendered when [isUpdating] holds
    (lines 98 and 131 to 133). *)
Definition spinnerShown (s : State) : bool :=
  negb (isEditing s) && isUpdating s.

(** ** The mounted component and its events *)

Record Props := { tags : list TagEntry; datapointId : Z }.

(** A mounted component: its current props and state, every remote call it
    has started so far, and those of them that have not settled yet. *)
Record Component := mkComponent {
  props : Props;
  state : State;
  issued : list Call;
  outstanding : list Call
}.

Inductive Outcome := fulfilled | rejected.

Inductive Event :=
| TagsProp (tags : list TagEntry)      (* the parent passes a new [tags] array *)
| DatapointIdProp (datapointId : Z)    (* the parent passes a new [datapointId] *)
| Click                                (* click on the tag display *)
| Change (value : jsstring)            (* input in the textarea *)
| KeyPress (key : jsstring)            (* key press in the textarea *)
| FormSubmit                           (* submit event of the form *)
| Blur                                 (* the textarea loses focus *)
| Settle (n : nat) (o : Outcome).      (* the n-th outstanding call settles *)

Definition dropNth {A} (n : nat) (l : list A) : list A :=
  firstn n l ++ skipn (S n) l.

(** First render with the [useState] defaults, then the effect runs. *)
Definition mount (p : Props) : Component :=
  {| props := p; state := useEffect (tags p) initialState;
     issued := []; outstanding := [] |}.

Definition withState (c : Component) (s : State) : Component :=
  {| props := props c; state := s;
     issued := issued c; outstanding := outstanding c |}.

Definition withCalls (c : Component) (r : State * list Call) : Component :=
  {| props := props c; state := fst r;
     issued := issued c ++ snd r; outstanding := outstanding c ++ snd r |}.

(** One event.  The textarea and its form exist while [isEditing] holds and
    the clickable display while it does not (lines 98 to 135), so an event is
    refused in the other mode.  The [then] callbacks of lines 66 and 73 are
    empty and nothing handles a rejection: a settled call leaves the state
    alone. *)
Definition step (c : Component) (e : Event) : option Component :=
  match e with
  | TagsProp t =>
      Some {| props := {| tags := t; datapointId := datapointId (props c) |};
              state := useEffect t (state c);
              issued := issued c; outstanding := outstanding c |}
  | DatapointIdProp i =>
      Some {| props := {| tags := tags (props c); datapointId := i |};
              state := state c;
              issued := issued c; outstanding := outstanding c |}
  | Click =>
      if isEditing (state c) then None
      else Some (withState c (onClick (state c)))
  | Change v =>
      if isEditing (state c)
      then Some (withState c (checkAndSetName v (state c)))
      else None
  | KeyPress k =>
      if isEditing (state c)
      then Some (withCalls c (onKeyPress (datapointId (props c)) k (state c)))
      else None
  | FormSubmit =>
      if isEditing (state c)
      then Some (withCalls c (onSubmitName (datapointId (props c)) (state c)))
      else None
  | Blur =>
      if isEditing (state c)
      then Some (withState c (handleBlur (state c)))
      else None
  | Settle n _ =>
      match nth_error (outstanding c) n with
      | Some _ =>
          Some {| props := props c; state := state c; issued := issued c;
                  outstanding := dropNth n (outstanding c) |}
      | None => None
      end
  end.

Fixpoint run (c : Component) (evs : list Event) : option Component :=
  match evs with
  | [] => Some c
  | e :: rest =>
      match step c e with
      | Some c' => run c' rest
      | None => None
      end
  end.

(** The states a mounted component can be in. *)
Definition reachable (c : Component) : Prop :=
  exists p evs, run (mount p) evs = Some c.

(** A submit whose buffer differs from the stored snapshot, the only event
    after which [tagsArray] is set without the two strings. *)
Definition differingSubmit (c : Component) (e : Event) : bool :=
  match e with
  | FormSubmit => negb (strict_eq (tagString (state c)) (originalTagString (state c)))
  | KeyPress k =>
      strict_eq k (lit "Enter")
      && negb (strict_eq (tagString (state c)) (originalTagString (state c)))
  | _ => false
  end.

(** [run] restricted to events that are not differing submits. *)
Fixpoint runQuiet (c : Component) (evs : list Event) : option Component :=
  match evs with
  | [] => Some c
  | e :: rest =>
      if differingSubmit c e then None
      else match step c e with
           | Some c' => runQuiet c' rest
           | None => None
           end
  end.

(** The edits of one edit session: input and key presses other than Enter. *)
Inductive Edit :=
| Typed (value : jsstring)
| Key (key : jsstring).

Definition editEvent (e : Edit) : Event :=
  match e with
  | Typed v => Change v
  | Key k => KeyPress k
  end.

Definition isEnter (e : Edit) : bool :=
  match e with
  | Typed _ => false
  | Key k => strict_eq k (lit "Enter")
  end.

(** The buffer after the edits of a session that started with [buffer]. *)
Definition bufferAfter (edits : list Edit) (buffer : jsstring) : jsstring :=
  fold_left (fun b e => match e with Typed v => v | Key _ => b end)
            edits buffer.

Definition noEnter (edits : list Edit) : bool :=
  forallb (fun e => negb (isEnter e)) edits.

(** The snapshot is the serialized [tagsArray], and outside of editing the
    buffer is the snapshot. *)
Definition inSync (s : State) : Prop :=
  originalTagString s = serialize (tagsArray s)
  /\ (isEditing s = false -> tagString s = originalTagString s).

(** The component as it is right after the effect on [tags] has run. *)
Definition reinitialised (c : Component) : Prop :=
  (exists p, c = mount p)
  \/ (exists c0 t, reachable c0 /\ step c0 (TagsProp t) = Some c).

Definition isSettle (e : Event) : bool :=
  match e with
  | Settle _ _ => true
  | _ => false
  end.

(** What the component returns, lines 96 to 138: the form with the textarea
    showing [tagString] while editing, otherwise the clickable box with one
    [TagButton] per element of [tagsArray] and the spinner when [isUpdating]
    holds. *)
Inductive View :=
| FormView (value : jsstring)
| BoxView (buttons : list jsstring) (spinner : bool).

Definition render (s : State) : View :=
  if isEditing s then FormView (tagString s)
  else BoxView (tagsArray s) (if isUpdating s then true else false).

(** [tags.map(tag => tag.tag.name)], line 36. *)
Definition tagNames (tags : list TagEntry) : list jsstring :=
  map (fun t => name (tag t)) tags.

Definition callVariables (c : Call) : Variables :=
  match c with
  | addTag v => v
  | unTag v => v
  end.

(** Texts without a comma and without white space at either end. *)
Definition commaFree (s : jsstring) : bool :=
  forallb (fun c => negb (c =? comma)%N) s.

Definition trimmed (s : jsstring) : bool :=
  negb (startsWithWhiteSpace s) && negb (endsWithWhiteSpace s).

Definition plainName (s : jsstring) : bool := commaFree s && trimmed s.

Definition jsstring_eq_dec : forall a b : jsstring, {a = b} + {a <> b} :=
  list_eq_dec N.eq_dec.

(** ** Basic facts about strings *)

Lemma strict_eq_spec (s1 s2 : jsstring) : strict_eq s1 s2 = true <-> s1 = s2.
Proof.
  revert s2; induction s1 as [|c1 r1 IH]; intros [|c2 r2]; simpl;
    try (split; congruence).
  rewrite andb_true_iff, N.eqb_eq, IH. split.
  - intros [-> ->]; reflexivity.
  - intros E; injection E; auto.
Qed.

Lemma strict_eq_refl (s : jsstring) : strict_eq s s = true.
Proof. apply strict_eq_spec; reflexivity. Qed.

Lemma strict_eq_false (s1 s2 : jsstring) : strict_eq s1 s2 = false <-> s1 <> s2.
Proof.
  rewrite <- strict_eq_spec. destruct (strict_eq s1 s2); split; congruence.
Qed.

Lemma includes_spec (arr : list jsstring) (x : jsstring) :
  includes arr x = true <-> In x arr.
Proof.
  unfold includes. rewrite existsb_exists. split.
  - intros [y [Hy E]]. apply strict_eq_spec in E. subst; assumption.
  - intros H. exists x. split; [assumption | apply strict_eq_refl].
Qed.

Lemma includes_false (arr : list jsstring) (x : jsstring) :
  includes arr x = false <-> ~ In x arr.
Proof.
  rewrite <- includes_spec. destruct (includes arr x); split; congruence.
Qed.

Example parse_ws : parse (lit " a ,  b") = [lit "a"; lit "b"].
Proof. reflexivity. Qed.

Example parse_empty : parse (lit "") = [lit ""].
Proof. reflexivity. Qed.

Example parse_trailing : parse (lit "a,") = [lit "a"; lit ""].
Proof. reflexivity. Qed.

Example parse_double : parse (lit "a,,b") = [lit "a"; lit ""; lit "b"].
Proof. reflexivity. Qed.

Example serialize_ab : serialize [lit "a"; lit "b"] = lit "a, b".
Proof. reflexivity. Qed.

(** ** Parsing: [split] and [trim] *)

Lemma split_cons (sep : char) (s : jsstring) :
  exists piece more, split sep s = piece :: more.
Proof.
  destruct s as [|c rest]; simpl; [eauto|].
  destruct (c =? sep)%N; [eauto|].
  destruct (split sep rest); eauto.
Qed.

Lemma join_cons_cons (sep x y : jsstring) (l : list jsstring) :
  join sep (x :: y :: l) = x ++ sep ++ join sep (y :: l).
Proof. reflexivity. Qed.

Lemma join_push (sep : jsstring) (c : char) (p : jsstring) (l : list jsstring) :
  join sep ((c :: p) :: l) = c :: join sep (p :: l).
Proof. destruct l; reflexivity. Qed.

Lemma join_split (sep : char) (s : jsstring) : join [sep] (split sep s) = s.
Proof.
  induction s as [|c rest IH]; simpl; [reflexivity|].
  destruct (N.eqb_spec c sep) as [->|_].
  - destruct (split_cons sep rest) as [p [m E]]. rewrite E in *.
    rewrite join_cons_cons, IH. reflexivity.
  - destruct (split_cons sep rest) as [p [m E]]. rewrite E in *.
    rewrite join_push, IH. reflexivity.
Qed.

Lemma split_pieces (sep : char) (s : jsstring) :
  Forall (fun piece => ~ In sep piece) (split sep s).
Proof.
  induction s as [|c rest IH]; simpl.
  - constructor; [intros [] | constructor].
  - destruct (N.eqb_spec c sep) as [->|Hc].
    + constructor; [intros [] | assumption].
    + destruct (split sep rest) as [|p m].
      * constructor; [|constructor]. intros [E|[]]. congruence.
      * inversion IH; subst. constructor; [|assumption].
        intros [E|H]; [congruence | contradiction].
Qed.

Lemma split_length (sep : char) (s : jsstring) :
  length (split sep s) = S (count_occ N.eq_dec s sep).
Proof.
  induction s as [|c rest IH]; simpl; [reflexivity|].
  destruct (N.eqb_spec c sep) as [->|Hc].
  - destruct (N.eq_dec sep sep); [|congruence]. simpl. rewrite IH. reflexivity.
  - destruct (N.eq_dec c sep); [congruence|].
    destruct (split_cons sep rest) as [p [m E]]. rewrite E in *. exact IH.
Qed.

Lemma trimStart_spec (s : jsstring) :
  exists l, s = l ++ trimStart s
            /\ forallb isWhiteSpace l = true
            /\ startsWithWhiteSpace (trimStart s) = false.
Proof.
  induction s as [|c rest IH]; simpl.
  - exists []. auto.
  - destruct (isWhiteSpace c) eqn:W.
    + destruct IH as [l [E [Hl Hs]]]. exists (c :: l). simpl.
      rewrite W, Hl, <- E. auto.
    + exists []. simpl. auto.
Qed.

Lemma forallb_rev {A} (f : A -> bool) (l : list A) :
  forallb f (rev l) = forallb f l.
Proof.
  destruct (forallb f l) eqn:E.
  - rewrite forallb_forall in *. intros x Hx. apply E, in_rev, Hx.
  - destruct (forallb f (rev l)) eqn:E'; [|reflexivity].
    rewrite <- E. symmetry. rewrite forallb_forall in *.
    intros x Hx. apply E'. rewrite <- in_rev. exact Hx.
Qed.

Lemma trimEnd_spec (s : jsstring) :
  exists r, s = trimEnd s ++ r
            /\ forallb isWhiteSpace r = true
            /\ endsWithWhiteSpace (trimEnd s) = false.
Proof.
  unfold trimEnd, endsWithWhiteSpace.
  destruct (trimStart_spec (rev s)) as [l [E [Hl Hs]]].
  exists (rev l). repeat split.
  - rewrite <- rev_app_distr, <- E, rev_involutive. reflexivity.
  - rewrite forallb_rev. exact Hl.
  - rewrite rev_involutive. exact Hs.
Qed.

Lemma trimEnd_start (s : jsstring) :
  startsWithWhiteSpace s = false -> startsWithWhiteSpace (trimEnd s) = false.
Proof.
  intros H. destruct (trimEnd_spec s) as [r [E _]].
  destruct (trimEnd s) as [|c u]; [reflexivity|].
  rewrite E in H. exact H.
Qed.

Lemma trim_spec (s : jsstring) :
  exists l r, s = l ++ trim s ++ r
              /\ forallb isWhiteSpace l = true
              /\ forallb isWhiteSpace r = true
              /\ startsWithWhiteSpace (trim s) = false
              /\ endsWithWhiteSpace (trim s) = false.
Proof.
  unfold trim.
  destruct (trimStart_spec s) as [l [El [Hl Hs]]].
  destruct (trimEnd_spec (trimStart s)) as [r [Er [Hr He]]].
  exists l, r. repeat split; auto.
  - rewrite <- Er. exact El.
  - apply trimEnd_start, Hs.
Qed.

(** C7. Parsing splits the buffer at every comma (the pieces contain no
    comma, joined by commas they give the buffer back, and there is one
    piece more than there are commas), replaces every piece by the piece
    without its leading and trailing white space, and drops no piece, not
    even an empty one; it is a total function, so it returns a list for
    every buffer. *)
Theorem parse_splits_and_trims (buffer : jsstring) :
  join [comma] (split comma buffer) = buffer
  /\ Forall (fun piece => ~ In comma piece) (split comma buffer)
  /\ length (split comma buffer) = S (count_occ N.eq_dec buffer comma)
  /\ parse buffer = map trim (split comma buffer)
  /\ length (parse buffer) = S (count_occ N.eq_dec buffer comma)
  /\ (forall piece, exists l r,
         piece = l ++ trim piece ++ r
         /\ forallb isWhiteSpace l = true
         /\ forallb isWhiteSpace r = true
         /\ startsWithWhiteSpace (trim piece) = false
         /\ endsWithWhiteSpace (trim piece) = false)
  /\ parse (lit " a ,  b") = [lit "a"; lit "b"]
  /\ parse (lit "a,") = [lit "a"; lit ""]
  /\ parse (lit "a,,b") = [lit "a"; lit ""; lit "b"]
  /\ parse (lit "") = [lit ""]
  /\ (exists pieces, parse buffer = pieces).
Proof.
  split; [apply join_split|].
  split; [apply split_pieces|].
  split; [apply split_length|].
  split; [reflexivity|].
  split; [unfold parse; rewrite length_map; apply split_length|].
  split; [apply trim_spec|].
  repeat split; try reflexivity.
  eexists; reflexivity.
Qed.

(** ** The diff of [onSubmitName] *)

Lemma remove_In (original edited : list jsstring) (x : jsstring) :
  In x (remove original edited) <-> In x original /\ ~ In x edited.
Proof.
  unfold remove. rewrite filter_In, negb_true_iff, includes_false. tauto.
Qed.

Lemma add_In (original edited : list jsstring) (x : jsstring) :
  In x (add original edited) <-> In x edited /\ ~ In x original.
Proof.
  unfold add. rewrite filter_In, negb_true_iff, includes_false. tauto.
Qed.

Lemma keep_In (original edited : list jsstring) (x : jsstring) :
  In x (keep original edited) <-> In x original /\ In x edited.
Proof.
  unfold keep. rewrite filter_In, includes_spec. tauto.
Qed.

Lemma filter_nil_iff {A} (f : A -> bool) (l : list A) :
  filter f l = [] <-> forall x, In x l -> f x = false.
Proof.
  induction l as [|a l IH]; simpl.
  - split; [intros _ x [] | reflexivity].
  - destruct (f a) eqn:E; split.
    + discriminate.
    + intros H. specialize (H a (or_introl eq_refl)). congruence.
    + intros H x [<-|Hx]; [assumption | apply IH; assumption].
    + intros H. apply IH. intros x Hx. apply H. right; assumption.
Qed.

Lemma remove_nil (original edited : list jsstring) :
  remove original edited = [] <-> incl original edited.
Proof.
  unfold remove. rewrite filter_nil_iff. unfold incl.
  split; intros H x Hx; specialize (H x Hx).
  - apply negb_false_iff, includes_spec in H. exact H.
  - apply negb_false_iff, includes_spec. exact H.
Qed.

Lemma add_nil (original edited : list jsstring) :
  add original edited = [] <-> incl edited original.
Proof.
  unfold add. rewrite filter_nil_iff. unfold incl.
  split; intros H x Hx; specialize (H x Hx).
  - apply negb_false_iff, includes_spec in H. exact H.
  - apply negb_false_iff, includes_spec. exact H.
Qed.

Lemma filter_Permutation {A} (f : A -> bool) (l l' : list A) :
  Permutation l l' -> Permutation (filter f l) (filter f l').
Proof.
  induction 1 as [|a l l' _ IH|a b l|l l1 l2 _ IH1 _ IH2]; simpl.
  - constructor.
  - destruct (f a); [constructor|]; exact IH.
  - destruct (f a), (f b); try reflexivity. constructor.
  - etransitivity; eassumption.
Qed.

Lemma includes_Permutation (arr arr' : list jsstring) (x : jsstring) :
  Permutation arr arr' -> includes arr x = includes arr' x.
Proof.
  intros P. destruct (includes arr' x) eqn:E.
  - apply includes_spec. apply includes_spec in E.
    eapply Permutation_in; [symmetry; exact P | exact E].
  - apply includes_false. apply includes_false in E.
    intros H. apply E. eapply Permutation_in; eassumption.
Qed.

Lemma remove_Permutation (o o' e e' : list jsstring) :
  Permutation o o' -> Permutation e e' ->
  Permutation (remove o e) (remove o' e').
Proof.
  intros Po Pe. unfold remove.
  rewrite (filter_ext _ (fun x => negb (includes e' x))).
  - apply filter_Permutation, Po.
  - intros x. f_equal. apply includes_Permutation, Pe.
Qed.

Lemma add_Permutation (o o' e e' : list jsstring) :
  Permutation o o' -> Permutation e e' ->
  Permutation (add o e) (add o' e').
Proof.
  intros Po Pe. unfold add.
  rewrite (filter_ext _ (fun x => negb (includes o' x))).
  - apply filter_Permutation, Pe.
  - intros x. f_equal. apply includes_Permutation, Po.
Qed.

(** The calls of a submit, as lists of tag names. *)
Lemma onSubmitName_calls (datapointId : Z) (s : State) :
  snd (onSubmitName datapointId s)
  = map (fun t => addTag {| tagName := t; datapointIds := [datapointId] |})
        (add (parse (originalTagString s)) (parse (tagString s)))
    ++ map (fun t => unTag {| tagName := t; datapointIds := [datapointId] |})
           (remove (parse (originalTagString s)) (parse (tagString s))).
Proof.
  unfold onSubmitName.
  destruct (strict_eq (tagString s) (originalTagString s)) eqn:E; simpl.
  - apply strict_eq_spec in E. rewrite E.
    assert (Ha : add (parse (originalTagString s)) (parse (originalTagString s)) = [])
      by (apply add_nil, incl_refl).
    assert (Hr : remove (parse (originalTagString s)) (parse (originalTagString s)) = [])
      by (apply remove_nil, incl_refl).
    rewrite Ha, Hr. reflexivity.
  - reflexivity.
Qed.

Lemma onSubmitName_same (datapointId : Z) (s : State) :
  tagString s = originalTagString s ->
  onSubmitName datapointId s = (setIsEditing false s, []).
Proof.
  intros E. unfold onSubmitName.
  rewrite (proj2 (strict_eq_spec _ _) E). reflexivity.
Qed.

Lemma onSubmitName_differs (datapointId : Z) (s : State) :
  tagString s <> originalTagString s ->
  fst (onSubmitName datapointId s)
  = setTagsArray (parse (tagString s)) (setIsEditing false s).
Proof.
  intros E. unfold onSubmitName.
  rewrite (proj2 (strict_eq_false _ _) E). reflexivity.
Qed.

Lemma onSubmitName_viewing (datapointId : Z) (s : State) :
  isEditing (fst (onSubmitName datapointId s)) = false.
Proof.
  unfold onSubmitName.
  destruct (strict_eq (tagString s) (originalTagString s)); reflexivity.
Qed.

(** C1. For the tag lists [original] and [edited] the diff has in [remove]
    exactly the elements of [original] that occur nowhere in [edited] and in
    [add] exactly the elements of [edited] that occur nowhere in [original],
    occurrence being equality of the trimmed texts; the two are disjoint;
    reordering either input only reorders them; and the calls of a submit are
    one [addTag] per element of [add] and one [unTag] per element of [remove]
    of the parsed snapshot and the parsed buffer. *)
Theorem reconciler_diff
  (original edited original' edited' : list jsstring)
  (Ho : Permutation original original') (He : Permutation edited edited') :
  (forall x, In x (remove original edited) <-> In x original /\ ~ In x edited)
  /\ (forall x, In x (add original edited) <-> In x edited /\ ~ In x original)
  /\ (forall x, ~ (In x (add original edited) /\ In x (remove original edited)))
  /\ Permutation (remove original edited) (remove original' edited')
  /\ Permutation (add original edited) (add original' edited')
  /\ (forall datapointId s,
        snd (onSubmitName datapointId s)
        = map (fun t => addTag {| tagName := t; datapointIds := [datapointId] |})
              (add (parse (originalTagString s)) (parse (tagString s)))
          ++ map (fun t => unTag {| tagName := t; datapointIds := [datapointId] |})
                 (remove (parse (originalTagString s)) (parse (tagString s)))).
Proof.
  split; [intros x; apply remove_In|].
  split; [intros x; apply add_In|].
  split; [intros x [Ha Hr]; apply add_In in Ha; apply remove_In in Hr; tauto|].
  split; [apply remove_Permutation; assumption|].
  split; [apply add_Permutation; assumption|].
  apply onSubmitName_calls.
Qed.

Lemma reconciler_diff_witness :
  Permutation (remove (parse (lit "a, b , a")) (parse (lit "b,c")))
              (remove (parse (lit "a,a,b")) (parse (lit " c, b")))
  /\ remove (parse (lit "a, b , a")) (parse (lit "b,c")) = [lit "a"; lit "a"]
  /\ add (parse (lit "a, b , a")) (parse (lit "b,c")) = [lit "c"].
Proof.
  split; [|split; reflexivity].
  apply (reconciler_diff (parse (lit "a, b , a")) (parse (lit "b,c"))
                         (parse (lit "a,a,b")) (parse (lit " c, b"))).
  - simpl. apply perm_skip. apply perm_swap.
  - simpl. apply perm_swap.
Defined.

(** ** Runs *)

Lemma run_app (c : Component) (evs1 evs2 : list Event) :
  run c (evs1 ++ evs2)
  = match run c evs1 with
    | Some c' => run c' evs2
    | None => None
    end.
Proof.
  revert c; induction evs1 as [|e evs1 IH]; intros c; simpl; [reflexivity|].
  destruct (step c e); [apply IH | reflexivity].
Qed.

Lemma reachable_step (c c' : Component) (e : Event) :
  reachable c -> step c e = Some c' -> reachable c'.
Proof.
  intros [p [evs R]] S. exists p, (evs ++ [e]).
  rewrite run_app, R. simpl. rewrite S. reflexivity.
Qed.

Lemma reachable_run (c c' : Component) (evs : list Event) :
  reachable c -> run c evs = Some c' -> reachable c'.
Proof.
  revert c; induction evs as [|e evs IH]; intros c Hc R; simpl in R.
  - congruence.
  - destruct (step c e) as [c1|] eqn:S; [|discriminate].
    eapply IH; [eapply reachable_step; eassumption | exact R].
Qed.

Lemma reachable_mount (p : Props) : reachable (mount p).
Proof. exists p, []. reflexivity. Qed.

Lemma reinitialised_reachable (c : Component) : reinitialised c -> reachable c.
Proof.
  intros [[p ->] | [c0 [t [H S]]]].
  - apply reachable_mount.
  - eapply reachable_step; eassumption.
Qed.

(** Induction over the reachable states. *)
Lemma reachable_ind' (P : Component -> Prop) :
  (forall p, P (mount p)) ->
  (forall c e c', reachable c -> P c -> step c e = Some c' -> P c') ->
  forall c, reachable c -> P c.
Proof.
  intros Hm Hs c [p [evs R]].
  revert c R. induction evs as [|e evs IH] using rev_ind; intros c R.
  - simpl in R. injection R as <-. apply Hm.
  - rewrite run_app in R. destruct (run (mount p) evs) as [c1|] eqn:R1;
      [|discriminate].
    simpl in R. destruct (step c1 e) as [c2|] eqn:S; [|discriminate].
    injection R as <-. eapply Hs; [exists p, evs; exact R1 | apply IH; reflexivity | exact S].
Qed.

(** The edits of a session change the buffer and nothing else. *)
Lemma run_edits (edits : list Edit) (c : Component) :
  isEditing (state c) = true ->
  noEnter edits = true ->
  run c (map editEvent edits)
  = Some (withState c (setTagString (bufferAfter edits (tagString (state c)))
                                    (state c))).
Proof.
  revert c; induction edits as [|e edits IH]; intros c HE HN; simpl.
  - destruct c as [p [ed up o t a] i out]; reflexivity.
  - simpl in HN. apply andb_true_iff in HN. destruct HN as [Hn HN].
    destruct e as [v|k]; simpl; rewrite HE.
    + rewrite IH; [|exact HE|exact HN].
      destruct c as [p [ed up o t a] i out]; reflexivity.
    + simpl in Hn. apply negb_true_iff in Hn.
      unfold onKeyPress. rewrite Hn. unfold withCalls; simpl.
      rewrite !app_nil_r.
      rewrite <- (IH c HE HN).
      destruct c as [p [ed up o t a] i out]; reflexivity.
Qed.

(** Click, then the edits. *)
Lemma run_session (edits : list Edit) (c : Component) :
  isEditing (state c) = false ->
  noEnter edits = true ->
  run c (Click :: map editEvent edits)
  = Some (withState c (setTagString (bufferAfter edits (tagString (state c)))
                                    (setIsEditing true (state c)))).
Proof.
  intros HV HN. simpl. rewrite HV.
  rewrite run_edits; [|unfold onClick; simpl; rewrite HV; reflexivity|exact HN].
  unfold onClick. rewrite HV.
  destruct c as [p [ed up o t a] i out]; reflexivity.
Qed.

Lemma step_settle_state (c c' : Component) (e : Event) :
  isSettle e = true -> step c e = Some c' -> state c' = state c.
Proof.
  destruct e; try discriminate. intros _. simpl.
  destruct (nth_error (outstanding c) n); [|discriminate].
  intros E; injection E as <-. reflexivity.
Qed.

Lemma run_settle_state (evs : list Event) (c c' : Component) :
  forallb isSettle evs = true -> run c evs = Some c' -> state c' = state c.
Proof.
  revert c; induction evs as [|e evs IH]; intros c HS R; simpl in *.
  - congruence.
  - apply andb_true_iff in HS. destruct HS as [He HS].
    destruct (step c e) as [c1|] eqn:S; [|discriminate].
    rewrite (IH c1 HS R). eapply step_settle_state; eassumption.
Qed.

Lemma run_settle_all (outcomes : list Outcome) (c : Component) :
  List.length outcomes = List.length (outstanding c) ->
  exists c', run c (map (Settle 0) outcomes) = Some c'
             /\ outstanding c' = [] /\ state c' = state c.
Proof.
  revert c; induction outcomes as [|o os IH]; intros c HL; simpl in *.
  - exists c. destruct (outstanding c); [auto | discriminate].
  - destruct (outstanding c) as [|r rs] eqn:E; [discriminate|]. simpl.
    injection HL as HL.
    destruct (IH {| props := props c; state := state c; issued := issued c;
                    outstanding := dropNth 0 (r :: rs) |}) as [c' [R [Ho Hs]]].
    + exact HL.
    + exists c'. auto.
Qed.

(** ** Submit, discard and the edit session *)

(** C2. A submit with the buffer textually identical to the snapshot, the
    value of [originalTagString] when the session began, returns to viewing
    and does nothing else: [tagsArray] keeps its value and no call is started,
    whether the submit comes from the form or from the Enter key. *)
Theorem submit_unchanged_buffer
  (c0 : Component) (edits : list Edit)
  (HV : isEditing (state c0) = false)
  (HN : noEnter edits = true)
  (Hsame : bufferAfter edits (tagString (state c0)) = originalTagString (state c0)) :
  exists c,
    run c0 (Click :: map editEvent edits ++ [FormSubmit]) = Some c
    /\ run c0 (Click :: map editEvent edits ++ [KeyPress (lit "Enter")]) = Some c
    /\ isEditing (state c) = false
    /\ tagsArray (state c) = tagsArray (state c0)
    /\ originalTagString (state c) = originalTagString (state c0)
    /\ tagString (state c) = originalTagString (state c0)
    /\ issued c = issued c0
    /\ outstanding c = outstanding c0
    /\ (forall datapointId s,
          tagString s = originalTagString s ->
          onSubmitName datapointId s = (setIsEditing false s, [])).
Proof.
  exists (withState c0 (setTagString (originalTagString (state c0))
                                     (setIsEditing false (state c0)))).
  assert (R : forall e,
             e = FormSubmit \/ e = KeyPress (lit "Enter") ->
             run c0 (Click :: map editEvent edits ++ [e])
             = Some (withState c0 (setTagString (originalTagString (state c0))
                                                (setIsEditing false (state c0))))).
  { intros e He. change (Click :: map editEvent edits ++ [e])
      with ((Click :: map editEvent edits) ++ [e]).
    rewrite run_app, (run_session edits c0 HV HN), Hsame.
    destruct He as [-> | ->]; simpl; unfold withCalls;
      rewrite ?onSubmitName_same by reflexivity;
      [|unfold onKeyPress; simpl; rewrite onSubmitName_same by reflexivity];
      simpl; rewrite !app_nil_r; reflexivity. }
  split; [apply R; auto|]. split; [apply R; auto|].
  repeat split. apply onSubmitName_same.
Qed.

Lemma submit_unchanged_buffer_witness :
  exists c,
    run (mount {| tags := [{| tag := {| name := lit "a" |} |};
                           {| tag := {| name := lit "b" |} |}];
                  datapointId := 7 |})
        [Click; Change (lit "a, c"); KeyPress (lit "x"); Change (lit "a, b");
         FormSubmit] = Some c
    /\ isEditing (state c) = false
    /\ tagsArray (state c) = [lit "a"; lit "b"]
    /\ issued c = [].
Proof.
  destruct (submit_unchanged_buffer
              (mount {| tags := [{| tag := {| name := lit "a" |} |};
                                 {| tag := {| name := lit "b" |} |}];
                        datapointId := 7 |})
              [Typed (lit "a, c"); Key (lit "x"); Typed (lit "a, b")]
              eq_refl eq_refl eq_refl)
    as [c [R [_ [HE [HA [_ [_ [HI _]]]]]]]].
  exists c. repeat split; assumption.
Defined.

(** C8. Discarding an edit session (click, any edits, loss of focus) puts
    the snapshot back into the buffer, leaves [tagsArray] as it was, returns
    to viewing and starts no call. *)
Theorem discard_restores_snapshot
  (c0 : Component) (edits : list Edit)
  (HV : isEditing (state c0) = false)
  (HN : noEnter edits = true) :
  exists c,
    run c0 (Click :: map editEvent edits ++ [Blur]) = Some c
    /\ tagString (state c) = originalTagString (state c0)
    /\ originalTagString (state c) = originalTagString (state c0)
    /\ tagsArray (state c) = tagsArray (state c0)
    /\ isEditing (state c) = false
    /\ issued c = issued c0
    /\ outstanding c = outstanding c0
    /\ (forall s, handleBlur s
                  = setTagString (originalTagString s) (setIsEditing false s)).
Proof.
  exists (withState c0 (setTagString (originalTagString (state c0))
                                     (setIsEditing false (state c0)))).
  split.
  - change (Click :: map editEvent edits ++ [Blur])
      with ((Click :: map editEvent edits) ++ [Blur]).
    rewrite run_app, (run_session edits c0 HV HN). reflexivity.
  - repeat split.
Qed.

Lemma discard_restores_snapshot_witness :
  exists c,
    run (mount {| tags := [{| tag := {| name := lit "a" |} |}];
                  datapointId := 7 |})
        [Click; Change (lit "a, b"); KeyPress (lit "c"); Blur] = Some c
    /\ tagString (state c) = lit "a"
    /\ tagsArray (state c) = [lit "a"]
    /\ isEditing (state c) = false
    /\ issued c = [].
Proof.
  destruct (discard_restores_snapshot
              (mount {| tags := [{| tag := {| name := lit "a" |} |}];
                        datapointId := 7 |})
              [Typed (lit "a, b"); Key (lit "c")] eq_refl eq_refl)
    as [c [R [HT [_ [HA [HE [HI _]]]]]]].
  exists c. repeat split; assumption.
Defined.

(** C6. When the parsed buffer and the parsed snapshot contain the same
    texts, a submit starts no [addTag] and no [unTag] call, also when the two
    strings differ and the guard of line 53 lets the diff run. *)
Theorem same_tags_no_requests
  (c : Component)
  (HE : isEditing (state c) = true)
  (Hsame : forall x, In x (parse (tagString (state c)))
                     <-> In x (parse (originalTagString (state c)))) :
  snd (onSubmitName (datapointId (props c)) (state c)) = []
  /\ exists c', step c FormSubmit = Some c'
                /\ issued c' = issued c
                /\ outstanding c' = outstanding c
                /\ isEditing (state c') = false.
Proof.
  assert (E : snd (onSubmitName (datapointId (props c)) (state c)) = []).
  { rewrite onSubmitName_calls.
    rewrite (proj2 (add_nil _ _)), (proj2 (remove_nil _ _)); [reflexivity| |];
      intros x Hx; apply Hsame; exact Hx. }
  split; [exact E|].
  simpl. rewrite HE. eexists. split; [reflexivity|].
  unfold withCalls; simpl. rewrite E, !app_nil_r.
  repeat split. apply onSubmitName_viewing.
Qed.

Lemma same_tags_no_requests_witness :
  strict_eq (lit "b, a") (lit "a, b") = false
  /\ snd (onSubmitName 7 (mkState true false (lit "a, b") (lit "b, a")
                                  [lit "a"; lit "b"])) = [].
Proof.
  split; [reflexivity|].
  apply (same_tags_no_requests
           ({| props := {| tags := [{| tag := {| name := lit "a" |} |};
                                         {| tag := {| name := lit "b" |} |}];
                                datapointId := 7 |};
                    state := mkState true false (lit "a, b") (lit "b, a")
                                     [lit "a"; lit "b"];
                    issued := []; outstanding := [] |})).
  - reflexivity.
  - intros x. simpl. tauto.
Defined.

(** C4. A submit whose buffer differs from the snapshot sets [tagsArray] to
    the parsed buffer and returns to viewing while every call it has started
    is still outstanding; whichever way and in whichever order outstanding
    calls settle afterwards, fulfilled or rejected, the component state stays
    what the submit made it. *)
Theorem submit_is_optimistic
  (c : Component)
  (HE : isEditing (state c) = true)
  (Hd : tagString (state c) <> originalTagString (state c)) :
  exists c',
    step c FormSubmit = Some c'
    /\ step c (KeyPress (lit "Enter")) = Some c'
    /\ state c' = setTagsArray (parse (tagString (state c)))
                               (setIsEditing false (state c))
    /\ isEditing (state c') = false
    /\ tagsArray (state c') = parse (tagString (state c))
    /\ outstanding c'
       = outstanding c ++ snd (onSubmitName (datapointId (props c)) (state c))
    /\ (forall evs c'',
          forallb isSettle evs = true -> run c' evs = Some c'' ->
          state c'' = state c')
    /\ (forall outcomes,
          List.length outcomes = List.length (outstanding c') ->
          exists c'', run c' (map (Settle 0) outcomes) = Some c''
                      /\ outstanding c'' = []
                      /\ state c'' = state c').
Proof.
  exists (withCalls c (onSubmitName (datapointId (props c)) (state c))).
  split; [simpl; rewrite HE; reflexivity|].
  split; [simpl; rewrite HE; reflexivity|].
  split; [simpl; apply onSubmitName_differs, Hd|].
  split; [simpl; apply onSubmitName_viewing|].
  split; [simpl; rewrite onSubmitName_differs by exact Hd; reflexivity|].
  split; [reflexivity|].
  split.
  - intros evs c'' HS R. eapply run_settle_state; eassumption.
  - intros outcomes HL. apply run_settle_all, HL.
Qed.

Lemma submit_is_optimistic_witness :
  exists c',
    step {| props := {| tags := [{| tag := {| name := lit "a" |} |};
                                 {| tag := {| name := lit "b" |} |}];
                        datapointId := 7 |};
            state := mkState true false (lit "a, b") (lit "b, c")
                             [lit "a"; lit "b"];
            issued := []; outstanding := [] |} FormSubmit = Some c'
    /\ state c' = mkState false false (lit "a, b") (lit "b, c")
                          [lit "b"; lit "c"]
    /\ outstanding c'
       = [addTag {| tagName := lit "c"; datapointIds := [7%Z] |};
          unTag {| tagName := lit "a"; datapointIds := [7%Z] |}]
    /\ exists c'', run c' [Settle 1 rejected; Settle 0 fulfilled] = Some c''
                   /\ outstanding c'' = []
                   /\ state c'' = state c'.
Proof.
  destruct (submit_is_optimistic
              {| props := {| tags := [{| tag := {| name := lit "a" |} |};
                                      {| tag := {| name := lit "b" |} |}];
                             datapointId := 7 |};
                 state := mkState true false (lit "a, b") (lit "b, c")
                                  [lit "a"; lit "b"];
                 issued := []; outstanding := [] |})
    as [c' [S [_ [HS [_ [_ [HO [HF _]]]]]]]].
  - reflexivity.
  - discriminate.
  - exists c'. split; [exact S|]. split; [exact HS|]. split; [exact HO|].
    simpl in S. injection S as <-.
    eexists. split; [reflexivity|]. split; reflexivity.
Defined.

(** ** The empty string as a tag name *)

Lemma map_unTag_In (datapointId : Z) (x : jsstring) (l : list jsstring)
                   (more : list jsstring) :
  In (unTag {| tagName := x; datapointIds := [datapointId] |})
     (map (fun t => addTag {| tagName := t; datapointIds := [datapointId] |}) more
      ++ map (fun t => unTag {| tagName := t; datapointIds := [datapointId] |}) l)
  <-> In x l.
Proof.
  rewrite in_app_iff, !in_map_iff. split.
  - intros [[y [E _]] | [y [E Hy]]]; [discriminate|].
    injection E as ->. exact Hy.
  - intros H. right. exists x. auto.
Qed.

Lemma map_addTag_In (datapointId : Z) (x : jsstring) (l : list jsstring)
                    (more : list jsstring) :
  In (addTag {| tagName := x; datapointIds := [datapointId] |})
     (map (fun t => addTag {| tagName := t; datapointIds := [datapointId] |}) l
      ++ map (fun t => unTag {| tagName := t; datapointIds := [datapointId] |}) more)
  <-> In x l.
Proof.
  rewrite in_app_iff, !in_map_iff. split.
  - intros [[y [E Hy]] | [y [E _]]]; [|discriminate].
    injection E as ->. exact Hy.
  - intros H. left. exists x. auto.
Qed.

(** C10, as the code has it. With no upstream tag the snapshot is the
    empty string, which parses to the one empty piece.  A submit over that
    snapshot starts an [unTag] call for the empty name exactly when no piece
    of the buffer is empty after trimming, and a submit of the empty buffer
    starts an [addTag] call for the empty name exactly when no piece of the
    snapshot is empty after trimming. *)
Theorem empty_name_requests (datapointId : Z) (s : State) :
  (forall s0, tagsArray (useEffect [] s0) = []
              /\ tagString (useEffect [] s0) = lit ""
              /\ originalTagString (useEffect [] s0) = lit "")
  /\ parse (lit "") = [lit ""]
  /\ (originalTagString s = lit "" ->
      (In (unTag {| tagName := lit ""; datapointIds := [datapointId] |})
          (snd (onSubmitName datapointId s))
       <-> ~ In (lit "") (parse (tagString s))))
  /\ (tagString s = lit "" ->
      (In (addTag {| tagName := lit ""; datapointIds := [datapointId] |})
          (snd (onSubmitName datapointId s))
       <-> ~ In (lit "") (parse (originalTagString s)))).
Proof.
  split; [intros s0; repeat split|].
  split; [reflexivity|].
  split; intros E; rewrite onSubmitName_calls, E.
  - rewrite map_unTag_In, remove_In. simpl. intuition.
  - rewrite map_addTag_In, add_In. simpl. intuition.
Qed.

Lemma empty_name_requests_witness :
  snd (onSubmitName 7 (mkState true false (lit "") (lit "a") []))
  = [addTag {| tagName := lit "a"; datapointIds := [7%Z] |};
     unTag {| tagName := lit ""; datapointIds := [7%Z] |}]
  /\ In (unTag {| tagName := lit ""; datapointIds := [7%Z] |})
        (snd (onSubmitName 7 (mkState true false (lit "") (lit "a") [])))
  /\ snd (onSubmitName 7 (mkState true false (lit "a") (lit "") [lit "a"]))
     = [addTag {| tagName := lit ""; datapointIds := [7%Z] |};
        unTag {| tagName := lit "a"; datapointIds := [7%Z] |}]
  /\ In (addTag {| tagName := lit ""; datapointIds := [7%Z] |})
        (snd (onSubmitName 7 (mkState true false (lit "a") (lit "") [lit "a"]))).
Proof.
  split; [reflexivity|]. split; [|split; [reflexivity|]].
  - apply (proj1 (proj2 (proj2 (empty_name_requests
                                  7 (mkState true false (lit "") (lit "a") []))))).
    + reflexivity.
    + simpl. intros [H|[]]. discriminate.
  - apply (proj2 (proj2 (proj2 (empty_name_requests
                                  7 (mkState true false (lit "a") (lit "") [lit "a"]))))).
    + reflexivity.
    + simpl. intros [H|[]]. discriminate.
Defined.

(** C10 as stated fails: over the empty snapshot the buffer [a,] adds the
    tag [a], and no [unTag] call for the empty name is started, because the
    piece after the trailing comma is the empty string. *)
Lemma trailing_comma_no_empty_unTag :
  originalTagString (mkState true false (lit "") (lit "a,") []) = lit ""
  /\ snd (onSubmitName 7 (mkState true false (lit "") (lit "a,") []))
     = [addTag {| tagName := lit "a"; datapointIds := [7%Z] |}]
  /\ ~ In (unTag {| tagName := lit ""; datapointIds := [7%Z] |})
          (snd (onSubmitName 7 (mkState true false (lit "") (lit "a,") []))).
Proof.
  split; [reflexivity|]. split; [reflexivity|].
  simpl. intros [H|[]]. discriminate.
Qed.

(** ** Invariants of the reachable states *)

Lemma useEffect_inSync (t : list TagEntry) (s : State) : inSync (useEffect t s).
Proof. split; reflexivity. Qed.

Lemma reinitialised_inSync (c : Component) : reinitialised c -> inSync (state c).
Proof.
  intros [[p ->] | [c0 [t [_ S]]]].
  - apply useEffect_inSync.
  - simpl in S. injection S as <-. apply useEffect_inSync.
Qed.

Lemma onSubmitName_inSync (datapointId : Z) (s : State) :
  strict_eq (tagString s) (originalTagString s) = true ->
  inSync s -> inSync (fst (onSubmitName datapointId s)).
Proof.
  intros E [H1 _]. apply strict_eq_spec in E.
  rewrite onSubmitName_same by exact E. split; simpl; auto.
Qed.

Lemma step_inSync (c c' : Component) (e : Event) :
  differingSubmit c e = false -> step c e = Some c' ->
  inSync (state c) -> inSync (state c').
Proof.
  intros Q S HS. assert (H1 := proj1 HS).
  destruct e; simpl in S, Q;
    try (destruct (isEditing (state c)) eqn:HE; [|discriminate]);
    try (destruct (isEditing (state c)) eqn:HE; [discriminate|]).
  - injection S as <-. apply useEffect_inSync.
  - injection S as <-. exact HS.
  - injection S as <-. split; simpl; [exact H1 | rewrite HE; discriminate].
  - injection S as <-. split; simpl; [exact H1 | rewrite HE; discriminate].
  - injection S as <-. simpl. unfold onKeyPress.
    destruct (strict_eq key (lit "Enter")); simpl in Q.
    + apply onSubmitName_inSync; [|exact HS].
      apply negb_false_iff. exact Q.
    + exact HS.
  - injection S as <-. simpl.
    apply onSubmitName_inSync; [|exact HS].
    apply negb_false_iff. exact Q.
  - injection S as <-. split; simpl; auto.
  - destruct (nth_error (outstanding c) n); [|discriminate].
    injection S as <-. exact HS.
Qed.

Lemma runQuiet_inSync (evs : list Event) (c c' : Component) :
  runQuiet c evs = Some c' -> inSync (state c) -> inSync (state c').
Proof.
  revert c; induction evs as [|e evs IH]; intros c R H; simpl in R.
  - injection R as <-. exact H.
  - destruct (differingSubmit c e) eqn:Q; [discriminate|].
    destruct (step c e) as [c1|] eqn:S; [|discriminate].
    eapply IH; [exact R|]. eapply step_inSync; eassumption.
Qed.

Lemma runQuiet_run (evs : list Event) (c c' : Component) :
  runQuiet c evs = Some c' -> run c evs = Some c'.
Proof.
  revert c; induction evs as [|e evs IH]; intros c R; simpl in *.
  - exact R.
  - destruct (differingSubmit c e); [discriminate|].
    destruct (step c e); [apply IH, R | discriminate].
Qed.

(** [isUpdating] keeps its initial value: no handler sets it. *)
Lemma isUpdating_false (c : Component) :
  reachable c -> isUpdating (state c) = false.
Proof.
  induction 1 as [p | c e c' _ IH S] using reachable_ind'; [reflexivity|].
  destruct e; simpl in S;
    try (destruct (isEditing (state c)); try discriminate);
    try (destruct (nth_error (outstanding c) n); [|discriminate]);
    injection S as <-; simpl; try exact IH.
  - unfold onKeyPress. destruct (strict_eq key (lit "Enter")); [|exact IH].
    unfold onSubmitName.
    destruct (strict_eq (tagString (state c)) (originalTagString (state c)));
      exact IH.
  - unfold onSubmitName.
    destruct (strict_eq (tagString (state c)) (originalTagString (state c)));
      exact IH.
Qed.

Lemma spinner_never_shown (c : Component) :
  reachable c -> spinnerShown (state c) = false.
Proof.
  intros H. unfold spinnerShown. rewrite (isUpdating_false c H).
  apply andb_false_r.
Qed.

(** The snapshot is the serialization of the upstream tags in [props]. *)
Lemma snapshot_upstream (c : Component) :
  reachable c ->
  originalTagString (state c)
  = serialize (map (fun t => name (tag t)) (tags (props c))).
Proof.
  induction 1 as [p | c e c' _ IH S] using reachable_ind'; [reflexivity|].
  destruct e; simpl in S;
    try (destruct (isEditing (state c)); try discriminate);
    try (destruct (nth_error (outstanding c) n); [|discriminate]);
    injection S as <-; simpl; try exact IH; try reflexivity.
  - unfold onKeyPress. destruct (strict_eq key (lit "Enter")); [|exact IH].
    unfold onSubmitName.
    destruct (strict_eq (tagString (state c)) (originalTagString (state c)));
      exact IH.
  - unfold onSubmitName.
    destruct (strict_eq (tagString (state c)) (originalTagString (state c)));
      exact IH.
Qed.

(** Outside of editing the buffer is the snapshot, or [tagsArray] is the
    parsed buffer. *)
Lemma viewing_buffer (c : Component) :
  reachable c ->
  isEditing (state c) = false ->
  tagString (state c) = originalTagString (state c)
  \/ tagsArray (state c) = parse (tagString (state c)).
Proof.
  induction 1 as [p | c e c' _ IH S] using reachable_ind';
    [left; reflexivity|].
  assert (Hsub : forall i,
             isEditing (fst (onSubmitName i (state c))) = false ->
             tagString (fst (onSubmitName i (state c)))
             = originalTagString (fst (onSubmitName i (state c)))
             \/ tagsArray (fst (onSubmitName i (state c)))
                = parse (tagString (fst (onSubmitName i (state c))))).
  { intros i _. unfold onSubmitName.
    destruct (strict_eq (tagString (state c)) (originalTagString (state c))) eqn:E;
      simpl; [left; apply strict_eq_spec, E | right; reflexivity]. }
  destruct e; simpl in S.
  - injection S as <-. left; reflexivity.
  - injection S as <-. exact IH.
  - destruct (isEditing (state c)) eqn:HE; [discriminate|].
    injection S as <-. simpl. rewrite HE. discriminate.
  - destruct (isEditing (state c)) eqn:HE; [|discriminate].
    injection S as <-. simpl. rewrite HE. discriminate.
  - destruct (isEditing (state c)) eqn:HE; [|discriminate].
    injection S as <-. simpl. unfold onKeyPress.
    destruct (strict_eq key (lit "Enter")); [apply Hsub|].
    simpl. rewrite HE. discriminate.
  - destruct (isEditing (state c)) eqn:HE; [|discriminate].
    injection S as <-. apply Hsub.
  - destruct (isEditing (state c)) eqn:HE; [|discriminate].
    injection S as <-. left; reflexivity.
  - destruct (nth_error (outstanding c) n); [|discriminate].
    injection S as <-. exact IH.
Qed.

(** ** The busy indicator *)

(** C9 at a concrete run: with no upstream tag, after a click, the input
    [a] and a submit, two calls are outstanding and the spinner is not
    rendered, since [isUpdating] is still false. *)
Theorem spinner_hidden_while_outstanding :
  exists c,
    run (mount {| tags := []; datapointId := 7 |})
        [Click; Change (lit "a"); FormSubmit] = Some c
    /\ reachable c
    /\ outstanding c
       = [addTag {| tagName := lit "a"; datapointIds := [7%Z] |};
          unTag {| tagName := lit ""; datapointIds := [7%Z] |}]
    /\ isEditing (state c) = false
    /\ isUpdating (state c) = false
    /\ spinnerShown (state c) = false.
Proof.
  eexists. split; [reflexivity|].
  split; [|repeat split].
  exists {| tags := []; datapointId := 7 |},
         [Click; Change (lit "a"); FormSubmit].
  reflexivity.
Qed.

(** ** The snapshot and the serialized tags *)

(** C3 as stated fails: after the submit of the buffer [ b] over the
    upstream tag [a] and a second click, the buffer is still [ b] and the
    snapshot is still [a], while the serialized [tagsArray] is [b]; the next
    submit, of the buffer [c], diffs against [a] and starts [unTag] for [a]
    a second time and no [unTag] for [b]. *)
Lemma click_after_submit_keeps_old_snapshot :
  exists c c2,
    run (mount {| tags := [{| tag := {| name := lit "a" |} |}];
                  datapointId := 7 |})
        [Click; Change (lit " b"); FormSubmit; Click] = Some c
    /\ isEditing (state c) = true
    /\ tagsArray (state c) = [lit "b"]
    /\ serialize (tagsArray (state c)) = lit "b"
    /\ tagString (state c) = lit " b"
    /\ originalTagString (state c) = lit "a"
    /\ tagString (state c) <> serialize (tagsArray (state c))
    /\ originalTagString (state c) <> serialize (tagsArray (state c))
    /\ run c [Change (lit "c"); FormSubmit] = Some c2
    /\ issued c2
       = [addTag {| tagName := lit "b"; datapointIds := [7%Z] |};
          unTag {| tagName := lit "a"; datapointIds := [7%Z] |};
          addTag {| tagName := lit "c"; datapointIds := [7%Z] |};
          unTag {| tagName := lit "a"; datapointIds := [7%Z] |}].
Proof.
  eexists. eexists.
  split; [reflexivity|].
  repeat split; try discriminate.
Qed.

(** C3, as the code has it. A click on the tag display only switches to
    editing: buffer, snapshot and [tagsArray] keep their values.  The
    original side of the diff of the submit that ends the session is the
    parsed [originalTagString] of the state that was clicked, which in a
    reachable state is the serialization of the upstream tags.  When no
    submit with a differing buffer has happened since the last
    re-initialisation, buffer and snapshot at the click both are the
    serialized [tagsArray]. *)
Theorem click_keeps_snapshot
  (c : Component) (edits : list Edit)
  (HV : isEditing (state c) = false)
  (HN : noEnter edits = true) :
  exists c' c2,
    step c Click = Some c'
    /\ state c' = setIsEditing true (state c)
    /\ run c' (map editEvent edits ++ [FormSubmit]) = Some c2
    /\ issued c2
       = issued c
         ++ map (fun t => addTag {| tagName := t;
                                    datapointIds := [datapointId (props c)] |})
                (add (parse (originalTagString (state c)))
                     (parse (bufferAfter edits (tagString (state c)))))
         ++ map (fun t => unTag {| tagName := t;
                                   datapointIds := [datapointId (props c)] |})
                (remove (parse (originalTagString (state c)))
                        (parse (bufferAfter edits (tagString (state c)))))
    /\ (reachable c ->
        originalTagString (state c')
        = serialize (map (fun t => name (tag t)) (tags (props c'))))
    /\ (forall c1 evs,
          reinitialised c1 -> runQuiet c1 evs = Some c ->
          tagString (state c') = serialize (tagsArray (state c'))
          /\ originalTagString (state c') = serialize (tagsArray (state c'))).
Proof.
  eexists. eexists.
  split; [simpl; rewrite HV; reflexivity|].
  split; [simpl; unfold onClick; rewrite HV; reflexivity|].
  split.
  - rewrite run_app, run_edits;
      [|simpl; rewrite HV; reflexivity|exact HN].
    simpl. rewrite HV. simpl. reflexivity.
  - split; [simpl; rewrite onSubmitName_calls; reflexivity|].
    split.
    + intros Hc. simpl. apply snapshot_upstream, Hc.
    + intros c1 evs Hinit Hrun.
      assert (HS : inSync (state c)).
      { eapply runQuiet_inSync; [exact Hrun | apply reinitialised_inSync, Hinit]. }
      destruct HS as [H1 H2]. specialize (H2 HV).
      simpl. split; congruence.
Qed.

Lemma click_keeps_snapshot_witness :
  exists c c' c2,
    runQuiet (mount {| tags := [{| tag := {| name := lit "a" |} |};
                                {| tag := {| name := lit "b" |} |}];
                       datapointId := 7 |})
             [Click; Change (lit "x"); Blur] = Some c
    /\ step c Click = Some c'
    /\ tagString (state c') = lit "a, b"
    /\ originalTagString (state c') = lit "a, b"
    /\ tagString (state c') = serialize (tagsArray (state c'))
    /\ originalTagString (state c') = serialize (tagsArray (state c'))
    /\ run c' [Change (lit "b, c"); FormSubmit] = Some c2
    /\ issued c2
       = [addTag {| tagName := lit "c"; datapointIds := [7%Z] |};
          unTag {| tagName := lit "a"; datapointIds := [7%Z] |}].
Proof.
  eexists.
  destruct (click_keeps_snapshot
              (mkComponent
                 {| tags := [{| tag := {| name := lit "a" |} |};
                             {| tag := {| name := lit "b" |} |}];
                    datapointId := 7 |}
                 (mkState false false (lit "a, b") (lit "a, b")
                          [lit "a"; lit "b"])
                 [] [])
              [Typed (lit "b, c")] eq_refl eq_refl)
    as [c' [c2 [S [HS [R [HI [_ HQ]]]]]]].
  exists c', c2.
  split; [reflexivity|]. split; [exact S|].
  destruct (HQ (mount {| tags := [{| tag := {| name := lit "a" |} |};
                                  {| tag := {| name := lit "b" |} |}];
                         datapointId := 7 |})
               [Click; Change (lit "x"); Blur]
               (or_introl (ex_intro _ _ eq_refl)) eq_refl) as [HT HO].
  split; [rewrite HS; reflexivity|]. split; [rewrite HS; reflexivity|].
  split; [exact HT|]. split; [exact HO|].
  split; [exact R|]. exact HI.
Defined.

(** C5 as stated fails: after the submit of the buffer [a,b] over the
    upstream tag [a] the component is viewing, [tagsArray] is [a; b] with
    the serialization [a, b], the buffer is [a,b] and the snapshot is [a]. *)
Lemma viewing_strings_differ_after_submit :
  exists c,
    run (mount {| tags := [{| tag := {| name := lit "a" |} |}];
                  datapointId := 7 |})
        [Click; Change (lit "a,b"); FormSubmit] = Some c
    /\ isEditing (state c) = false
    /\ tagsArray (state c) = [lit "a"; lit "b"]
    /\ serialize (tagsArray (state c)) = lit "a, b"
    /\ tagString (state c) = lit "a,b"
    /\ originalTagString (state c) = lit "a"
    /\ tagString (state c) <> serialize (tagsArray (state c))
    /\ originalTagString (state c) <> serialize (tagsArray (state c)).
Proof.
  eexists. split; [reflexivity|].
  repeat split; discriminate.
Qed.

(** C5, as the code has it. In a viewing state reached from a
    re-initialisation (the mount, or a new upstream [tags] array) by events
    none of which is a submit with a buffer that differs from the snapshot,
    the buffer and the snapshot both are the serialized [tagsArray].  In
    every reachable viewing state the buffer is the snapshot, or
    [tagsArray] is the parsed buffer. *)
Theorem viewing_consistency
  (c1 c : Component) (evs : list Event)
  (Hinit : reinitialised c1)
  (Hrun : runQuiet c1 evs = Some c)
  (HV : isEditing (state c) = false) :
  reachable c
  /\ tagString (state c) = serialize (tagsArray (state c))
  /\ originalTagString (state c) = serialize (tagsArray (state c))
  /\ (forall c0, reachable c0 -> isEditing (state c0) = false ->
        tagString (state c0) = originalTagString (state c0)
        \/ tagsArray (state c0) = parse (tagString (state c0))).
Proof.
  assert (HS : inSync (state c)).
  { eapply runQuiet_inSync; [exact Hrun | apply reinitialised_inSync, Hinit]. }
  destruct HS as [H1 H2]. specialize (H2 HV).
  split.
  - eapply reachable_run; [apply reinitialised_reachable, Hinit|].
    apply runQuiet_run, Hrun.
  - split; [congruence|]. split; [exact H1|]. apply viewing_buffer.
Qed.

Lemma viewing_consistency_witness :
  exists c,
    runQuiet (mount {| tags := [{| tag := {| name := lit "a" |} |};
                                {| tag := {| name := lit "b" |} |}];
                       datapointId := 7 |})
             [Click; Change (lit "x"); Blur; Click; Change (lit "a, b");
              FormSubmit] = Some c
    /\ isEditing (state c) = false
    /\ tagString (state c) = serialize (tagsArray (state c))
    /\ originalTagString (state c) = serialize (tagsArray (state c)).
Proof.
  eexists. split; [reflexivity|]. split; [reflexivity|].
  refine (let H := viewing_consistency
                     (mount {| tags := [{| tag := {| name := lit "a" |} |};
                                        {| tag := {| name := lit "b" |} |}];
                               datapointId := 7 |})
                     _
                     [Click; Change (lit "x"); Blur; Click; Change (lit "a, b");
                      FormSubmit]
                     (or_introl (ex_intro _ _ eq_refl)) eq_refl eq_refl in
          conj (proj1 (proj2 H)) (proj1 (proj2 (proj2 H)))).
Defined.

(** ** Serializing and parsing again *)

Lemma commaFree_In (s : jsstring) : commaFree s = true <-> ~ In comma s.
Proof.
  unfold commaFree. rewrite forallb_forall. split.
  - intros H Hin. specialize (H _ Hin). rewrite N.eqb_refl in H. discriminate.
  - intros H c Hc. apply negb_true_iff, N.eqb_neq. intros ->. exact (H Hc).
Qed.

Lemma trimStart_id (s : jsstring) :
  startsWithWhiteSpace s = false -> trimStart s = s.
Proof. destruct s as [|c r]; simpl; [reflexivity|]. intros ->. reflexivity. Qed.

Lemma trimEnd_id (s : jsstring) :
  endsWithWhiteSpace s = false -> trimEnd s = s.
Proof.
  unfold endsWithWhiteSpace, trimEnd. intros H.
  rewrite trimStart_id by exact H. apply rev_involutive.
Qed.

Lemma trim_id (s : jsstring) : trimmed s = true -> trim s = s.
Proof.
  unfold trimmed. rewrite andb_true_iff, !negb_true_iff. intros [H1 H2].
  unfold trim. rewrite (trimStart_id s H1). apply trimEnd_id, H2.
Qed.

Lemma trim_trimmed (s : jsstring) : trimmed (trim s) = true.
Proof.
  destruct (trim_spec s) as [l [r [_ [_ [_ [H1 H2]]]]]].
  unfold trimmed. rewrite H1, H2. reflexivity.
Qed.

Lemma trim_commaFree (s : jsstring) :
  commaFree s = true -> commaFree (trim s) = true.
Proof.
  destruct (trim_spec s) as [l [r [E _]]].
  rewrite !commaFree_In. intros H Hin. apply H.
  rewrite E, !in_app_iff. auto.
Qed.

Lemma parse_plain (s : jsstring) :
  Forall (fun piece => plainName piece = true) (parse s).
Proof.
  unfold parse. apply Forall_map.
  eapply Forall_impl; [|apply (split_pieces comma s)].
  intros p Hp. unfold plainName.
  rewrite trim_trimmed, andb_true_r. apply trim_commaFree, commaFree_In, Hp.
Qed.

Lemma parse_cons (s : jsstring) : exists piece more, parse s = piece :: more.
Proof.
  unfold parse. destruct (split_cons comma s) as [p [m ->]]. simpl. eauto.
Qed.

Lemma split_commaFree (s : jsstring) :
  commaFree s = true -> split comma s = [s].
Proof.
  induction s as [|c r IH]; simpl; [reflexivity|].
  rewrite andb_true_iff, negb_true_iff. intros [Hc Hr].
  rewrite Hc, (IH Hr). reflexivity.
Qed.

Lemma split_app_comma (s r : jsstring) :
  commaFree s = true -> split comma (s ++ comma :: r) = s :: split comma r.
Proof.
  induction s as [|c s IH]; simpl.
  - intros _. reflexivity.
  - rewrite andb_true_iff, negb_true_iff. intros [Hc Hs].
    rewrite Hc, (IH Hs). reflexivity.
Qed.

Lemma parse_space (s : jsstring) : parse (32%N :: s) = parse s.
Proof.
  unfold parse. simpl.
  destruct (split_cons comma s) as [p [m ->]]. reflexivity.
Qed.

Lemma parse_serialize_plain (names : list jsstring) :
  names <> [] ->
  Forall (fun n => plainName n = true) names ->
  parse (serialize names) = names.
Proof.
  induction names as [|x rest IH]; [congruence|].
  intros _ HF. inversion HF as [|? ? Hx Hrest]; subst.
  unfold plainName in Hx. apply andb_true_iff in Hx. destruct Hx as [Hc Ht].
  destruct rest as [|y rest].
  - unfold serialize, parse. simpl.
    rewrite (split_commaFree x Hc). simpl. rewrite (trim_id x Ht). reflexivity.
  - unfold serialize. rewrite join_cons_cons.
    change (comma_space ++ join comma_space (y :: rest))
      with (comma :: 32%N :: serialize (y :: rest)).
    unfold parse at 1. rewrite (split_app_comma _ _ Hc). simpl map.
    rewrite (trim_id x Ht). f_equal.
    refine (eq_trans (parse_space (serialize (y :: rest))) _).
    apply IH; [discriminate | exact Hrest].
Qed.

(** X1. Serializing tag names with [", "] and parsing the result gives the
    names back, when there is at least one name and no name contains a comma
    or starts or ends with white space. *)
Theorem parse_serialize_roundtrip (names : list jsstring)
  (Hne : names <> [])
  (Hplain : forallb plainName names = true) :
  parse (serialize names) = names.
Proof.
  apply parse_serialize_plain; [exact Hne|].
  apply Forall_forall. rewrite forallb_forall in Hplain. exact Hplain.
Qed.

Lemma parse_serialize_roundtrip_witness :
  parse (serialize [lit "cat"; lit "big dog"; lit ""])
  = [lit "cat"; lit "big dog"; lit ""].
Proof.
  apply (parse_serialize_roundtrip [lit "cat"; lit "big dog"; lit ""]).
  - discriminate.
  - reflexivity.
Defined.

(** X2. Parsing normalises: every parsed piece is free of commas and of
    surrounding white space, trimming it again changes nothing, and
    serializing the parsed pieces and parsing again gives the same pieces. *)
Theorem parse_normalises (buffer : jsstring) :
  forallb plainName (parse buffer) = true
  /\ map trim (parse buffer) = parse buffer
  /\ parse (serialize (parse buffer)) = parse buffer.
Proof.
  assert (HF := parse_plain buffer).
  split; [apply forallb_forall; apply Forall_forall; exact HF|].
  split.
  - rewrite <- (map_id (parse buffer)) at 2. apply map_ext_in.
    intros p Hp. rewrite Forall_forall in HF. specialize (HF p Hp).
    unfold plainName in HF. apply andb_true_iff in HF. apply trim_id, HF.
  - apply parse_serialize_plain; [|exact HF].
    destruct (parse_cons buffer) as [p [m ->]]. discriminate.
Qed.

(** ** More on the three filters *)

Lemma filter_split_Permutation {A} (f : A -> bool) (l : list A) :
  Permutation l (filter f l ++ filter (fun x => negb (f x)) l).
Proof.
  induction l as [|a l IH]; simpl; [constructor|].
  destruct (f a); simpl.
  - constructor. exact IH.
  - apply Permutation_cons_app. exact IH.
Qed.

Lemma count_occ_filter (f : jsstring -> bool) (l : list jsstring) (x : jsstring) :
  count_occ jsstring_eq_dec (filter f l) x
  = if f x then count_occ jsstring_eq_dec l x else 0.
Proof.
  induction l as [|a l IH]; simpl; [destruct (f x); reflexivity|].
  destruct (jsstring_eq_dec a x) as [->|Hne].
  - destruct (f x) eqn:E; simpl.
    + destruct (jsstring_eq_dec x x); [|congruence]. rewrite IH. reflexivity.
    + exact IH.
  - destruct (f a); simpl; [|exact IH].
    destruct (jsstring_eq_dec a x); [congruence | exact IH].
Qed.

(** X3. The diff is enough to turn the original tags into the edited ones:
    a text is among the edited tags exactly when it is an original tag that
    is not removed, or an added tag; equivalently, when it is kept or
    added. *)
Theorem diff_rebuilds_edited (original edited : list jsstring) (x : jsstring) :
  (In x edited
   <-> (In x original /\ ~ In x (remove original edited))
       \/ In x (add original edited))
  /\ (In x edited
      <-> In x (keep original edited) \/ In x (add original edited)).
Proof.
  rewrite remove_In, add_In, keep_In.
  destruct (includes original x) eqn:Ho;
    [apply includes_spec in Ho | apply includes_false in Ho];
    (destruct (includes edited x) eqn:He;
     [apply includes_spec in He | apply includes_false in He]); tauto.
Qed.

(** X4. [keep] and [remove] split the original tags in two: together they
    are a rearrangement of the original list, their lengths add up to its
    length, no text is in both, and every kept text is an edited tag. *)
Theorem keep_remove_partition (original edited : list jsstring) :
  Permutation original (keep original edited ++ remove original edited)
  /\ List.length (keep original edited) + List.length (remove original edited)
     = List.length original
  /\ (forall x, ~ (In x (keep original edited) /\ In x (remove original edited)))
  /\ (forall x, In x (keep original edited) -> In x edited).
Proof.
  assert (P : Permutation original
                (keep original edited ++ remove original edited))
    by apply filter_split_Permutation.
  split; [exact P|]. split.
  - rewrite <- length_app. symmetry. apply Permutation_length, P.
  - split; intros x; rewrite keep_In, ?remove_In; tauto.
Qed.

(** X5. Repeated texts are not merged: a text that is not among the
    original tags is added once for each of its occurrences in the edited
    list, and a text that is not among the edited tags is removed once for
    each of its occurrences in the original list; any other text is not
    added, respectively not removed, at all. *)
Theorem diff_keeps_repetitions (original edited : list jsstring) (x : jsstring) :
  count_occ jsstring_eq_dec (add original edited) x
  = (if includes original x then 0 else count_occ jsstring_eq_dec edited x)
  /\ count_occ jsstring_eq_dec (remove original edited) x
     = (if includes edited x then 0 else count_occ jsstring_eq_dec original x).
Proof.
  unfold add, remove. rewrite !count_occ_filter.
  destruct (includes original x), (includes edited x); split; reflexivity.
Qed.

(** ** More on the mounted component *)

Lemma whiteSpace_trim (s : jsstring) :
  forallb isWhiteSpace s = true -> trim s = [] /\ commaFree s = true.
Proof.
  intros H. split.
  - assert (E : trimStart s = []).
    { induction s as [|c r IH]; simpl in *; [reflexivity|].
      apply andb_true_iff in H. destruct H as [Hc Hr].
      rewrite Hc. apply IH, Hr. }
    unfold trim. rewrite E. reflexivity.
  - unfold commaFree. rewrite forallb_forall in *. intros c Hc.
    specialize (H c Hc). apply negb_true_iff, N.eqb_neq. intros ->.
    discriminate H.
Qed.

Lemma onSubmitName_strings (datapointId : Z) (s : State) :
  tagString (fst (onSubmitName datapointId s)) = tagString s
  /\ originalTagString (fst (onSubmitName datapointId s)) = originalTagString s
  /\ isUpdating (fst (onSubmitName datapointId s)) = isUpdating s.
Proof.
  unfold onSubmitName.
  destruct (strict_eq (tagString s) (originalTagString s)); repeat split.
Qed.

Lemma onSubmitName_calls_plain (datapointId : Z) (s : State) :
  Forall (fun call => plainName (tagName (callVariables call)) = true
                      /\ datapointIds (callVariables call) = [datapointId])
         (snd (onSubmitName datapointId s)).
Proof.
  rewrite onSubmitName_calls. apply Forall_app. split; apply Forall_map.
  - apply Forall_forall. intros x Hx. apply add_In in Hx. simpl. split; [|reflexivity].
    assert (HF := parse_plain (tagString s)). rewrite Forall_forall in HF.
    apply HF, Hx.
  - apply Forall_forall. intros x Hx. apply remove_In in Hx. simpl. split; [|reflexivity].
    assert (HF := parse_plain (originalTagString s)). rewrite Forall_forall in HF.
    apply HF, Hx.
Qed.

Lemma dropNth_incl {A} (n : nat) (l : list A) : incl (dropNth n l) l.
Proof.
  unfold dropNth. intros x Hx. apply in_app_or in Hx. destruct Hx as [H|H].
  - rewrite <- (firstn_skipn n l). apply in_or_app. left. exact H.
  - rewrite <- (firstn_skipn (S n) l). apply in_or_app. right. exact H.
Qed.

(** X6. Every remote call the component has ever started names a tag
    without a comma and without white space at either end, and carries
    exactly one datapoint id; every outstanding call is one of them. *)
Theorem issued_calls_plain (c : Component) (Hc : reachable c) :
  Forall (fun call => plainName (tagName (callVariables call)) = true
                      /\ exists i, datapointIds (callVariables call) = [i])
         (issued c)
  /\ incl (outstanding c) (issued c).
Proof.
  induction Hc as [p | c e c' _ [IH1 IH2] S] using reachable_ind'.
  - split; [constructor | intros x []].
  - assert (Hsub : forall r,
               (exists i, r = onSubmitName i (state c)) \/ snd r = [] ->
               Forall (fun call => plainName (tagName (callVariables call)) = true
                                   /\ exists i, datapointIds (callVariables call) = [i])
                      (issued (withCalls c r))
               /\ incl (outstanding (withCalls c r)) (issued (withCalls c r))).
    { intros r Hr. simpl. split.
      - apply Forall_app. split; [exact IH1|].
        destruct Hr as [[i ->] | ->]; [|constructor].
        eapply Forall_impl; [|apply onSubmitName_calls_plain].
        intros call [H1 H2]. split; [exact H1 | eauto].
      - apply incl_app_app; [exact IH2 | apply incl_refl]. }
    destruct e; simpl in S.
    + injection S as <-. split; assumption.
    + injection S as <-. split; assumption.
    + destruct (isEditing (state c)); [discriminate|].
      injection S as <-. split; assumption.
    + destruct (isEditing (state c)); [|discriminate].
      injection S as <-. split; assumption.
    + destruct (isEditing (state c)); [|discriminate].
      injection S as <-. apply Hsub. unfold onKeyPress.
      destruct (strict_eq key (lit "Enter")); [left; eauto | right; reflexivity].
    + destruct (isEditing (state c)); [|discriminate].
      injection S as <-. apply Hsub. left; eauto.
    + destruct (isEditing (state c)); [|discriminate].
      injection S as <-. split; assumption.
    + destruct (nth_error (outstanding c) n); [|discriminate].
      injection S as <-. simpl. split; [exact IH1|].
      eapply incl_tran; [apply dropNth_incl | exact IH2].
Qed.

Lemma issued_calls_plain_witness :
  exists c,
    run (mount {| tags := [{| tag := {| name := lit "a" |} |}];
                  datapointId := 7 |})
        [Click; Change (lit " b , c c "); FormSubmit; Settle 1 rejected] = Some c
    /\ issued c
       = [addTag {| tagName := lit "b"; datapointIds := [7%Z] |};
          addTag {| tagName := lit "c c"; datapointIds := [7%Z] |};
          unTag {| tagName := lit "a"; datapointIds := [7%Z] |}]
    /\ Forall (fun call => plainName (tagName (callVariables call)) = true
                           /\ exists i, datapointIds (callVariables call) = [i])
              (issued c)
    /\ incl (outstanding c) (issued c).
Proof.
  eexists. split; [reflexivity|]. split; [reflexivity|].
  apply (issued_calls_plain
           (mkComponent
              {| tags := [{| tag := {| name := lit "a" |} |}]; datapointId := 7 |}
              (mkState false false (lit "a") (lit " b , c c ")
                       [lit "b"; lit "c c"])
              [addTag {| tagName := lit "b"; datapointIds := [7%Z] |};
               addTag {| tagName := lit "c c"; datapointIds := [7%Z] |};
               unTag {| tagName := lit "a"; datapointIds := [7%Z] |}]
              [addTag {| tagName := lit "b"; datapointIds := [7%Z] |};
               unTag {| tagName := lit "a"; datapointIds := [7%Z] |}])).
  exists {| tags := [{| tag := {| name := lit "a" |} |}]; datapointId := 7 |},
         [Click; Change (lit " b , c c "); FormSubmit; Settle 1 rejected].
  reflexivity.
Defined.

(** X7. In every reachable state the component renders either the form
    with the buffer as the value of the textarea, or the box with one button
    per element of [tagsArray] and without the spinner: [isUpdating] is
    never set. *)
Theorem render_without_spinner (c : Component) (Hc : reachable c) :
  (isEditing (state c) = true
   /\ render (state c) = FormView (tagString (state c)))
  \/ (isEditing (state c) = false
      /\ render (state c) = BoxView (tagsArray (state c)) false).
Proof.
  unfold render. rewrite (isUpdating_false c Hc).
  destruct (isEditing (state c)); [left | right]; split; reflexivity.
Qed.

Lemma render_without_spinner_witness :
  exists c,
    run (mount {| tags := []; datapointId := 7 |})
        [Click; Change (lit "a"); FormSubmit] = Some c
    /\ outstanding c <> []
    /\ render (state c) = BoxView [lit "a"] false.
Proof.
  eexists. split; [reflexivity|]. split; [discriminate|].
  destruct (render_without_spinner
              (mkComponent {| tags := []; datapointId := 7 |}
                           (mkState false false (lit "") (lit "a") [lit "a"])
                           [addTag {| tagName := lit "a"; datapointIds := [7%Z] |};
                            unTag {| tagName := lit ""; datapointIds := [7%Z] |}]
                           [addTag {| tagName := lit "a"; datapointIds := [7%Z] |};
                            unTag {| tagName := lit ""; datapointIds := [7%Z] |}]))
    as [[HE _] | [_ HR]].
  - exists {| tags := []; datapointId := 7 |},
           [Click; Change (lit "a"); FormSubmit].
    reflexivity.
  - discriminate HE.
  - exact HR.
Defined.

(** X8. A new upstream [tags] array that arrives while the user is editing
    keeps the component in editing, replaces the typed buffer, the snapshot
    and [tagsArray] by the new tags and starts no call; a submit or a loss of
    focus right after it returns to viewing with the new tags and, again,
    without any call. *)
Theorem tags_change_while_editing
  (c : Component) (t : list TagEntry)
  (HE : isEditing (state c) = true) :
  exists c1 c2 c3,
    step c (TagsProp t) = Some c1
    /\ isEditing (state c1) = true
    /\ tagString (state c1) = serialize (tagNames t)
    /\ originalTagString (state c1) = serialize (tagNames t)
    /\ tagsArray (state c1) = tagNames t
    /\ issued c1 = issued c
    /\ step c1 FormSubmit = Some c2
    /\ step c1 Blur = Some c3
    /\ state c2 = state c3
    /\ isEditing (state c2) = false
    /\ tagsArray (state c2) = tagNames t
    /\ tagString (state c2) = serialize (tagNames t)
    /\ issued c2 = issued c
    /\ issued c3 = issued c.
Proof.
  eexists. eexists. eexists.
  split; [reflexivity|].
  split; [exact HE|].
  do 4 (split; [reflexivity|]).
  split; [simpl; rewrite HE; reflexivity|].
  split; [simpl; rewrite HE; reflexivity|].
  simpl. rewrite onSubmitName_same by reflexivity. simpl.
  rewrite app_nil_r. repeat split.
Qed.

Lemma tags_change_while_editing_witness :
  exists c c1 c2,
    run (mount {| tags := [{| tag := {| name := lit "a" |} |}];
                  datapointId := 7 |})
        [Click; Change (lit "a, typed")] = Some c
    /\ step c (TagsProp [{| tag := {| name := lit "x" |} |};
                         {| tag := {| name := lit "y" |} |}]) = Some c1
    /\ render (state c1) = FormView (lit "x, y")
    /\ step c1 FormSubmit = Some c2
    /\ render (state c2) = BoxView [lit "x"; lit "y"] false
    /\ issued c2 = [].
Proof.
  eexists.
  destruct (tags_change_while_editing
              (mkComponent
                 {| tags := [{| tag := {| name := lit "a" |} |}];
                    datapointId := 7 |}
                 (mkState true false (lit "a") (lit "a, typed") [lit "a"])
                 [] [])
              [{| tag := {| name := lit "x" |} |};
               {| tag := {| name := lit "y" |} |}]
              eq_refl)
    as (c1 & c2 & c3 & S1 & _ & _ & _ & _ & _ & S2 & _ & _ & _ & _ & _ & HI & _).
  exists c1, c2.
  split; [reflexivity|]. split; [exact S1|].
  simpl in S1. injection S1 as <-.
  split; [reflexivity|]. split; [exact S2|].
  simpl in S2. injection S2 as <-.
  split; [reflexivity | exact HI].
Defined.

Lemma onSubmitName_again (datapointId : Z) (s : State) :
  tagString s <> originalTagString s ->
  onSubmitName datapointId (onClick (fst (onSubmitName datapointId s)))
  = (fst (onSubmitName datapointId s), snd (onSubmitName datapointId s)).
Proof.
  intros Hd. apply strict_eq_false in Hd.
  destruct s as [ed up o t a]. simpl in Hd.
  unfold onSubmitName. simpl. rewrite Hd. simpl. rewrite Hd. reflexivity.
Qed.

(** X9. A submit writes neither the buffer nor the snapshot.  So after a
    submit whose buffer differs from the snapshot, a click and a second
    submit without an edit start the same calls once more and leave the
    state as the first submit left it. *)
Theorem resubmit_repeats_calls
  (c : Component)
  (HE : isEditing (state c) = true)
  (Hd : tagString (state c) <> originalTagString (state c)) :
  exists c1 c2 c3,
    step c FormSubmit = Some c1
    /\ tagString (state c1) = tagString (state c)
    /\ originalTagString (state c1) = originalTagString (state c)
    /\ step c1 Click = Some c2
    /\ step c2 FormSubmit = Some c3
    /\ state c3 = state c1
    /\ issued c3
       = issued c
         ++ snd (onSubmitName (datapointId (props c)) (state c))
         ++ snd (onSubmitName (datapointId (props c)) (state c)).
Proof.
  eexists. eexists. eexists.
  split; [simpl; rewrite HE; reflexivity|].
  split; [simpl; apply onSubmitName_strings|].
  split; [simpl; apply onSubmitName_strings|].
  split; [simpl; rewrite onSubmitName_viewing; reflexivity|].
  split; [simpl; rewrite onSubmitName_viewing; reflexivity|].
  simpl. rewrite (onSubmitName_again _ _ Hd). simpl.
  split; [reflexivity | symmetry; apply app_assoc].
Qed.

Lemma resubmit_repeats_calls_witness :
  exists c3,
    run (mkComponent
           {| tags := [{| tag := {| name := lit "a" |} |}]; datapointId := 7 |}
           (mkState true false (lit "a") (lit "b") [lit "a"])
           [] [])
        [FormSubmit; Click; FormSubmit] = Some c3
    /\ issued c3
       = [addTag {| tagName := lit "b"; datapointIds := [7%Z] |};
          unTag {| tagName := lit "a"; datapointIds := [7%Z] |};
          addTag {| tagName := lit "b"; datapointIds := [7%Z] |};
          unTag {| tagName := lit "a"; datapointIds := [7%Z] |}].
Proof.
  destruct (resubmit_repeats_calls
              (mkComponent
                 {| tags := [{| tag := {| name := lit "a" |} |}];
                    datapointId := 7 |}
                 (mkState true false (lit "a") (lit "b") [lit "a"])
                 [] []))
    as (c1 & c2 & c3 & S1 & _ & _ & S2 & S3 & _ & HI).
  - reflexivity.
  - discriminate.
  - exists c3. split; [|exact HI].
    cbn [run]. rewrite S1, S2, S3. reflexivity.
Defined.

(** X10. After a submit whose buffer differs from the snapshot [tagsArray]
    has one element more than the buffer has commas, so it is never empty; a
    buffer of white space only, the empty buffer included, leaves the one
    empty name. *)
Theorem submit_never_empties_tagsArray
  (datapointId : Z) (s : State)
  (Hd : tagString s <> originalTagString s) :
  List.length (tagsArray (fst (onSubmitName datapointId s)))
  = S (count_occ N.eq_dec (tagString s) comma)
  /\ tagsArray (fst (onSubmitName datapointId s)) <> []
  /\ (forallb isWhiteSpace (tagString s) = true ->
      tagsArray (fst (onSubmitName datapointId s)) = [lit ""]).
Proof.
  rewrite (onSubmitName_differs datapointId s Hd). simpl.
  split; [unfold parse; rewrite length_map; apply split_length|].
  split.
  - destruct (parse_cons (tagString s)) as [p [m ->]]. discriminate.
  - intros Hw. destruct (whiteSpace_trim _ Hw) as [Ht Hc].
    unfold parse. rewrite (split_commaFree _ Hc). simpl. rewrite Ht. reflexivity.
Qed.

Lemma submit_never_empties_tagsArray_witness :
  tagsArray (fst (onSubmitName 7 (mkState true false (lit "a") (lit "  ")
                                          [lit "a"])))
  = [lit ""]
  /\ render (fst (onSubmitName 7 (mkState true false (lit "a") (lit "  ")
                                          [lit "a"])))
     = BoxView [lit ""] false.
Proof.
  split; [|reflexivity].
  apply (submit_never_empties_tagsArray
           7 (mkState true false (lit "a") (lit "  ") [lit "a"])).
  - discriminate.
  - reflexivity.
Defined.

(** X11. In every reachable state whose upstream tag list is not empty and
    has only names without commas and without surrounding white space, a
    submit starts one [addTag] call for each parsed piece of the buffer that
    is not an upstream name and one [unTag] call for each upstream name that
    is not a parsed piece of the buffer; so only upstream names are ever
    untagged. *)
Theorem submit_diffs_against_upstream
  (c : Component)
  (Hc : reachable c)
  (HE : isEditing (state c) = true)
  (Hne : tags (props c) <> [])
  (Hplain : forallb plainName (tagNames (tags (props c))) = true) :
  exists c',
    step c FormSubmit = Some c'
    /\ issued c'
       = issued c
         ++ map (fun t => addTag {| tagName := t;
                                    datapointIds := [datapointId (props c)] |})
                (add (tagNames (tags (props c))) (parse (tagString (state c))))
         ++ map (fun t => unTag {| tagName := t;
                                   datapointIds := [datapointId (props c)] |})
                (remove (tagNames (tags (props c))) (parse (tagString (state c))))
    /\ (forall v, In (unTag v) (snd (onSubmitName (datapointId (props c)) (state c))) ->
          In (tagName v) (tagNames (tags (props c)))).
Proof.
  assert (E : parse (originalTagString (state c)) = tagNames (tags (props c))).
  { rewrite (snapshot_upstream c Hc).
    apply parse_serialize_plain.
    - unfold tagNames. destruct (tags (props c)); [congruence | discriminate].
    - apply Forall_forall. rewrite forallb_forall in Hplain. exact Hplain. }
  eexists. split; [simpl; rewrite HE; reflexivity|].
  split.
  - simpl. rewrite onSubmitName_calls, E. reflexivity.
  - intros v Hv. rewrite onSubmitName_calls, E in Hv.
    apply in_app_or in Hv. destruct Hv as [Hv|Hv]; apply in_map_iff in Hv;
      destruct Hv as [x [Ex Hx]]; [discriminate|].
    injection Ex as <-. simpl. apply remove_In in Hx. tauto.
Qed.

Lemma submit_diffs_against_upstream_witness :
  exists c',
    step (mkComponent
            {| tags := [{| tag := {| name := lit "a" |} |};
                        {| tag := {| name := lit "b" |} |}];
               datapointId := 7 |}
            (mkState true false (lit "a, b") (lit "b,c") [lit "x"; lit "b"])
            [addTag {| tagName := lit "x"; datapointIds := [7%Z] |};
             unTag {| tagName := lit "a"; datapointIds := [7%Z] |}]
            [addTag {| tagName := lit "x"; datapointIds := [7%Z] |};
             unTag {| tagName := lit "a"; datapointIds := [7%Z] |}])
         FormSubmit = Some c'
    /\ issued c'
       = [addTag {| tagName := lit "x"; datapointIds := [7%Z] |};
          unTag {| tagName := lit "a"; datapointIds := [7%Z] |};
          addTag {| tagName := lit "c"; datapointIds := [7%Z] |};
          unTag {| tagName := lit "a"; datapointIds := [7%Z] |}].
Proof.
  destruct (submit_diffs_against_upstream
              (mkComponent
                 {| tags := [{| tag := {| name := lit "a" |} |};
                             {| tag := {| name := lit "b" |} |}];
                    datapointId := 7 |}
                 (mkState true false (lit "a, b") (lit "b,c") [lit "x"; lit "b"])
                 [addTag {| tagName := lit "x"; datapointIds := [7%Z] |};
                  unTag {| tagName := lit "a"; datapointIds := [7%Z] |}]
                 [addTag {| tagName := lit "x"; datapointIds := [7%Z] |};
                  unTag {| tagName := lit "a"; datapointIds := [7%Z] |}]))
    as (c' & S & HI & _).
  - exists {| tags := [{| tag := {| name := lit "a" |} |};
                       {| tag := {| name := lit "b" |} |}];
              datapointId := 7 |},
           [Click; Change (lit "x,b"); FormSubmit; Click; Change (lit "b,c")].
    reflexivity.
  - reflexivity.
  - discriminate.
  - reflexivity.
  - exists c'. split; [exact S | exact HI].
Defined.
